(** * JSTarget: the JavaScript target adapter of Fuzz4All

    A shallow embedding of [Fuzz4All/target/JS/JS.py]: the constructor
    and the prompt scaffold, the acceptance filter, the normaliser, the
    artifact writer and the classifier of one [node] run, with the
    properties the specification states about them and further ones
    read off the code.

    Python's [str] is a sequence of Unicode code points; it is modelled
    as a list of code points ([N]).  The file system and the table of
    live child processes are an explicit [world] that the effectful
    methods pass along. *)

From Stdlib Require Import Strings.String Strings.Ascii.
From Stdlib Require Import List NArith ZArith Bool Lia Arith.
Import ListNotations.

Set Implicit Arguments.
Open Scope string_scope.
Open Scope list_scope.

(* ================================================================== *)
(** ** Python strings *)
(* ================================================================== *)

Module PyStr.

Definition char := N.
Definition str := list char.

(** A literal of the source, written as a Rocq string of ASCII letters. *)
Definition of_string (s : string) : str :=
  map N_of_ascii (list_ascii_of_string s).
Arguments of_string s%_string.

Definition nl : char := 10%N.
Definition slash : char := 47%N.
Definition star : char := 42%N.

(** [c.isspace()]: the code points [str.strip()] removes. *)
Definition isspace (c : char) : bool :=
  ((9 <=? c) && (c <=? 13) || (28 <=? c) && (c <=? 32)
   || (c =? 133) || (c =? 160) || (c =? 5760)
   || (8192 <=? c) && (c <=? 8202)
   || (c =? 8232) || (c =? 8233) || (c =? 8239) || (c =? 8287)
   || (c =? 12288))%N.

Fixpoint lstrip (s : str) : str :=
  match s with
  | [] => []
  | c :: r => if isspace c then lstrip r else s
  end.

Definition rstrip (s : str) : str := rev (lstrip (rev s)).

(** [s.strip()] *)
Definition strip (s : str) : str := rstrip (lstrip s).

(** [s.startswith(p)] *)
Fixpoint startswith (p s : str) : bool :=
  match p, s with
  | [], _ => true
  | _ :: _, [] => false
  | a :: p', b :: s' => (a =? b)%N && startswith p' s'
  end.

(** [t in s] *)
Fixpoint contains (t s : str) : bool :=
  startswith t s ||
  match s with
  | [] => false
  | _ :: r => contains t r
  end.

(** The scan of [s.replace(old, new)] for a non-empty [old]: left to
    right, every occurrence found is replaced and the scan resumes after
    it.  [skip] counts the characters of the occurrence still to pass. *)
Fixpoint replace_scan (old new : str) (skip : nat) (s : str) : str :=
  match s with
  | [] => []
  | c :: r =>
      match skip with
      | S k => replace_scan old new k r
      | O =>
          if startswith old s
          then new ++ replace_scan old new (length old - 1) r
          else c :: replace_scan old new 0 r
      end
  end.

(** [s.replace(old, new)].  With an empty [old] Python puts [new] before
    every character and at the end. *)
Definition replace (old new s : str) : str :=
  match old with
  | [] => new ++ flat_map (fun c => c :: new) s
  | _ :: _ => replace_scan old new 0 s
  end.

(** [s.replace(old, new, 1)]: only the first occurrence. *)
Fixpoint replace_first (old new s : str) : str :=
  if startswith old s then new ++ skipn (length old) s
  else match s with
       | [] => []
       | c :: r => c :: replace_first old new r
       end.

(** [s.split(sep)] for a separator of one character, as the source
    calls it. *)
Fixpoint split (sep : char) (s : str) : list str :=
  match s with
  | [] => [[]]
  | c :: r =>
      if (c =? sep)%N then [] :: split sep r
      else match split sep r with
           | l :: ls => (c :: l) :: ls
           | [] => [[c]]
           end
  end.

(** [sep.join(ls)] *)
Fixpoint join (sep : str) (ls : list str) : str :=
  match ls with
  | [] => []
  | l :: ls' =>
      match ls' with
      | [] => l
      | _ :: _ => l ++ sep ++ join sep ls'
      end
  end.

(** [a or b] on strings: [a] when it is non-empty. *)
Definition or_else (a b : str) : str :=
  match a with
  | [] => b
  | _ :: _ => a
  end.

Definition is_empty (s : str) : bool :=
  match s with
  | [] => true
  | _ :: _ => false
  end.

(** A text given line by line. *)
Definition text (ls : list string) : str := join [nl] (map of_string ls).

(** [t] occurs in [s]. *)
Definition Substring (t s : str) : Prop := exists a b, s = a ++ t ++ b.

(** Only whitespace. *)
Definition blank (s : str) : bool := forallb isspace s.

(** The test [ln.strip() != ""] on a line. *)
Definition kept (ln : str) : bool := negb (is_empty (strip ln)).

(** [m] neither begins nor ends with whitespace. *)
Definition Trimmed (m : str) : Prop :=
  (forall c r, m = c :: r -> isspace c = false) /\
  (forall c r, m = r ++ [c] -> isspace c = false).

(** [m] is [t] without the whitespace around it. *)
Definition Trim (t m : str) : Prop :=
  exists l r, t = l ++ m ++ r /\ blank l = true /\ blank r = true
              /\ Trimmed m.

(** [t] is [s] without the occurrences of the marker [b], found from the
    left, an occurrence starting where the one before it ended at the
    earliest. *)
Inductive RemovedAll (b : str) : str -> str -> Prop :=
  | RA_no_marker s : b = [] -> RemovedAll b s s
  | RA_end : RemovedAll b [] []
  | RA_hit s t : b <> [] -> RemovedAll b s t -> RemovedAll b (b ++ s) t
  | RA_keep c s t :
      startswith b (c :: s) = false -> RemovedAll b s t ->
      RemovedAll b (c :: s) (c :: t).

End PyStr.

Import PyStr.

(* ================================================================== *)
(** ** The helper imported from [Fuzz4All.util.util] *)
(* ================================================================== *)

Module Util.

Inductive mode : Type := Code | LineComment | BlockComment.

(** One pass over the text: a line comment runs from two slashes to the
    end of its line (the line break stays), a block comment from
    slash-star to the next star-slash. *)
Fixpoint scan (m : mode) (s : str) : str :=
  match s with
  | [] => []
  | c :: r =>
      match m with
      | Code =>
          match r with
          | d :: r' =>
              if ((c =? slash) && (d =? slash))%N then scan LineComment r'
              else if ((c =? slash) && (d =? star))%N then scan BlockComment r'
              else c :: scan Code r
          | [] => [c]
          end
      | LineComment =>
          if (c =? nl)%N then c :: scan Code r else scan LineComment r
      | BlockComment =>
          match r with
          | d :: r' =>
              if ((c =? star) && (d =? slash))%N then scan Code r'
              else scan BlockComment r
          | [] => []
          end
      end
  end.

(** Modelled from the spec: [comment_remover] is defined in
    [Fuzz4All/util/util.py], which is not among the sources.  The
    specification only says that it strips all comments; this model
    removes the line comments and the block comments of JavaScript.  The
    properties below hold for every comment remover and use this one
    only to evaluate the methods on concrete candidates. *)
Definition comment_remover (text : str) : str := scan Code text.

End Util.

(* ================================================================== *)
(** ** The host: files, child processes, [subprocess.run] *)
(* ================================================================== *)

Module OS.

Definition str_eq_dec : forall a b : str, {a = b} + {a <> b} :=
  list_eq_dec N.eq_dec.

(** The files, by path.  A path stands for the file it names: two
    spellings of one name, or a link and what it points to, are not told
    apart here, and nothing below is about files other than the one a
    method opens. *)
Definition files := str -> option str.

Definition no_files : files := fun _ => None.

(** The file at [path] holds [content]. *)
Definition write_file (path content : str) (fs : files) : files :=
  fun p => if str_eq_dec p path then Some content else fs p.

Record world : Type := World {
  fs : files;
  children : list nat   (* the live child processes of the fuzzer *)
}.

Inductive exn : Type :=
  | TimeoutExpired
  | FileNotFoundError
  | PermissionError
  | UnicodeDecodeError
  | UnicodeEncodeError
  | OtherError (class_name : str).   (* any other exception, by its class *)

Inductive res (A : Type) : Type :=
  | Ret (a : A)
  | Raise (e : exn).
Arguments Ret {A} a.
Arguments Raise {A} e.

Record CompletedProcess : Type := Completed {
  returncode : Z;
  stdout : str;
  stderr : str
}.

(** What a launched program does under the time limit. *)
Inductive behaviour : Type :=
  | Exits (code : Z) (out err : str)
      (* ends in time with status [code] and its pipes closed; the two
         captured streams are text *)
  | ExitsGarbled (code : Z)
      (* ends in time with status [code]; a captured stream is not text *)
  | ExitsPipesHeld (code : Z)
      (* ends in time with status [code], but a process it started keeps
         the pipes open until the limit is hit *)
  | Overruns.
      (* still runs when the limit is hit *)

(** What asking the host to execute a command does: the launch raises
    [FileNotFoundError] (the program, or what it needs to start, is not
    found), it raises [PermissionError] (the program may not be
    executed), it raises something else (a file that is no program, an
    argument that no command line can hold, ...), or the program runs
    and leaves the files [after]. *)
Inductive launch : Type :=
  | NoSuchFile
  | NotPermitted
  | LaunchRaises (e : exn)
  | Launched (b : behaviour) (after : files).

(** The status with which the program ended within the time limit, if it
    was started and did end. *)
Definition exit_status (l : launch) : option Z :=
  match l with
  | Launched (Exits code _ _) _ => Some code
  | Launched (ExitsGarbled code) _ => Some code
  | Launched (ExitsPipesHeld code) _ => Some code
  | _ => None
  end.

(** The host is a parameter: files, command line and time limit decide
    what happens. *)
Definition machine : Type := files -> list str -> Z -> launch.

Definition fresh (pids : list nat) : nat := S (list_max pids).

Definition spawn (after : files) (w : world) : nat * world :=
  let pid := fresh (children w) in
  (pid, {| fs := after; children := pid :: children w |}).

(** The child is gone: it ended and was waited for, or it was killed and
    waited for. *)
Definition reap (pid : nat) (w : world) : world :=
  {| fs := fs w; children := remove Nat.eq_dec pid (children w) |}.

(** [subprocess.run(args, capture_output=True, text=True, timeout=t)] as
    the Python library documents it: a command that cannot be started
    raises and leaves no child; the time limit bounds the reading of the
    two pipes, and on its expiry the child is killed and waited for
    before [TimeoutExpired] is raised; so it is on any other error while
    the output is read. *)
Definition subprocess_run (m : machine) (args : list str) (timeout : Z)
    (w : world) : res CompletedProcess * world :=
  match m (fs w) args timeout with
  | NoSuchFile => (Raise FileNotFoundError, w)
  | NotPermitted => (Raise PermissionError, w)
  | LaunchRaises e => (Raise e, w)
  | Launched b after =>
      let (pid, w1) := spawn after w in
      match b with
      | Exits code out err => (Ret (Completed code out err), reap pid w1)
      | ExitsGarbled _ => (Raise UnicodeDecodeError, reap pid w1)
      | ExitsPipesHeld _ => (Raise TimeoutExpired, reap pid w1)
      | Overruns => (Raise TimeoutExpired, reap pid w1)
      end
  end.

(** What [open(path, "w", encoding="utf-8")] and the write that follows
    do on the host: the open raises and the file is as before; or the
    file is created or emptied, and then the text is stored in full
    ([None]) or storing it raises [e] and leaves [rest] in the file
    ([Some (e, rest)]: no room on the device, ...). *)
Inductive opening : Type :=
  | OpenFails (e : exn)
  | Opened (fault : option (exn * str)).

Definition storage : Type := files -> str -> opening.

(** [s.encode("utf-8")] raises [UnicodeEncodeError] exactly on a text
    that holds a surrogate code point. *)
Definition is_surrogate (c : char) : bool :=
  ((55296 <=? c) && (c <=? 57343))%N.

Definition encodable (s : str) : bool :=
  forallb (fun c => negb (is_surrogate c)) s.

End OS.

Import OS.

(* ================================================================== *)
(** ** Dictionaries with string keys *)
(* ================================================================== *)

Module PyDict.

(** A [dict] that is only read: the value under each key, if any. *)
Definition dict (V : Type) : Type := str -> option V.

Definition empty {V : Type} : dict V := fun _ => None.

(** The dict with [key] set to [v]. *)
Definition set {V : Type} (key : string) (v : V) (d : dict V) : dict V :=
  fun k => if str_eq_dec k (of_string key) then Some v else d k.

(** [d.get(key, default)] *)
Definition get {V : Type} (d : dict V) (key : string) (default : V) : V :=
  match d (of_string key) with
  | Some v => v
  | None => default
  end.

End PyDict.

(* ================================================================== *)
(** ** class JSTarget *)
(* ================================================================== *)

Module JSTarget.

(** The members of [FResult] that the class returns. *)
Inductive FResult : Type := SAFE | FAILURE | ERROR | TIMED_OUT.

(** The dictionary [_create_prompt_from_config] returns, by key. *)
Record prompt : Type := Prompt {
  docstring : str;
  example_code : str;
  separator : str;
  begin : str;
  hw_prompt : str;
  target_api : str
}.

(** The attributes of [self] the methods read.  [CURRENT_TIME] and
    [timeout] are set by the base class [Target]; [CURRENT_TIME] stands
    for the text the f-string of [write_back_file] renders it to. *)
Record t : Type := Self {
  prompt_used : prompt;
  CURRENT_TIME : str;
  timeout : Z
}.

(** [_create_prompt_from_config] on a configuration whose [target] and
    [fuzzing] sections are empty: every field takes its default. *)
Definition default_prompt : prompt :=
  let api_name := of_string "targetApi" in
  {| docstring := of_string "Implement code that uses " ++ api_name
                    ++ of_string ".";
     example_code := of_string "function demo() { console.log(" ++ api_name
                    ++ of_string "); }";
     separator := of_string "/* === */";
     begin := of_string "// Write code below";
     hw_prompt := [];
     target_api := api_name |}.

Section Methods.

Variable comment_remover : str -> str.
Variable host : machine.
Variable tmp : storage.

Definition filter (self : t) (code : str) : bool :=
  let code := strip (replace (begin (prompt_used self)) [] code) in
  let code := comment_remover code in
  contains (target_api (prompt_used self)) code.

Definition clean (self : t) (code : str) : str := comment_remover code.

Definition clean_code (self : t) (code : str) : str :=
  let code := strip (replace (begin (prompt_used self)) [] code) in
  let code := comment_remover code in
  let code :=
    join [nl]
      (List.filter (fun ln => negb (is_empty (strip ln))) (split nl code)) in
  code.

(** The [with] block opens the file, which empties it, then [f.write]
    encodes the text and the close stores it; each step can raise, and
    what it raises leaves the method. *)
Definition write_back_file (self : t) (code : str) (w : world)
    : res str * world :=
  let code := clean_code self code in
  let wb := of_string "/tmp/temp" ++ CURRENT_TIME self ++ of_string ".js" in
  let holding content :=
    {| fs := write_file wb content (fs w); children := children w |} in
  match tmp (fs w) wb with
  | OpenFails e => (Raise e, w)
  | Opened fault =>
      if encodable code then
        match fault with
        | None => (Ret wb, holding code)
        | Some (e, rest) => (Raise e, holding rest)
        end
      else (Raise UnicodeEncodeError, holding [])
  end.

Definition validate_individual (self : t) (filename : str) (w : world)
    : res (FResult * str) * world :=
  match subprocess_run host [of_string "node"; filename] (timeout self) w with
  | (Raise TimeoutExpired, w') => (Ret (TIMED_OUT, of_string "javascript"), w')
  | (Raise FileNotFoundError, w') =>
      (Ret (ERROR, of_string "node-not-found"), w')
  | (Raise e, w') => (Raise e, w')
  | (Ret exit_code, w') =>
      if (returncode exit_code =? 0)%Z
      then (Ret (SAFE, or_else (stdout exit_code) (of_string "ok")), w')
      else
        let stderr := or_else (stderr exit_code) (stdout exit_code) in
        (Ret (FAILURE, stderr), w')
  end.

(** Modelled from the spec: the caller that chains the two methods is in
    the base class [Target], which is not among the sources.  Section 4.4
    gives one validation call as: persist the source to the artifact, run
    the interpreter on it, classify.  What [write_back_file] raises ends
    the call. *)
Definition validate (self : t) (code : str) (w : world)
    : res (FResult * str) * world :=
  match write_back_file self code w with
  | (Ret wb, w1) => validate_individual self wb w1
  | (Raise e, w1) => (Raise e, w1)
  end.

End Methods.

(** *** Prompting helpers *)

Definition wrap_prompt (self : t) (prompt : str) : str :=
  of_string "// " ++ prompt ++ [nl] ++ separator (prompt_used self)
    ++ [nl] ++ begin (prompt_used self).

Definition wrap_in_comment (self : t) (prompt : str) : str :=
  of_string "// " ++ prompt.

(** *** Construction *)

(** What the constructor and [_create_prompt_from_config] raise. *)
Inductive error : Type :=
  | KeyError (key : str)
  | NotImplementedError (message : str).

Inductive outcome (A : Type) : Type :=
  | Done (a : A)
  | Raised (e : error).
Arguments Done {A} a.
Arguments Raised {A} e.

(** The configuration read from the YAML file: sections of text fields. *)
Definition config : Type := PyDict.dict (PyDict.dict str).

Definition _create_prompt_from_config (cdict : config) : outcome prompt :=
  match cdict (of_string "target") with
  | None => Raised (KeyError (of_string "target"))
  | Some target =>
      match cdict (of_string "fuzzing") with
      | None => Raised (KeyError (of_string "fuzzing"))
      | Some fuzzing =>
          let api_name := PyDict.get target "api_name" (of_string "targetApi") in
          let docstring :=
            PyDict.get target "docstring"
              (of_string "Implement code that uses " ++ api_name
                 ++ of_string ".") in
          let example :=
            PyDict.get target "example_code"
              (of_string "function demo() { console.log(" ++ api_name
                 ++ of_string "); }") in
          let input_hint :=
            PyDict.get target "input_hint" (of_string "// Write code below") in
          let trigger :=
            PyDict.get target "trigger_token" (of_string "/* === */") in
          Done {| docstring := docstring;
                  example_code := example;
                  separator := trigger;
                  begin := input_hint;
                  hw_prompt := PyDict.get fuzzing "handwritten_prompt" [];
                  target_api := api_name |}
      end
  end.

(** The keyword arguments [__init__] itself reads. *)
Record kwargs : Type := Kwargs {
  kw_template : option str;
  kw_config_dict : option config
}.

(** The attributes of the base class that the methods read. *)
Record base : Type := Base {
  base_CURRENT_TIME : str;
  base_timeout : Z
}.

(** The object after [__init__]. *)
Record instance : Type := Instance {
  self_of : t;
  config_dict : config;
  special_eos : option str
}.

Section Construction.

(** The call of the base constructor with the same keyword arguments:
    the constructor of [Target] is not among the sources; it either
    raises or leaves its attributes. *)
Variable super_init : kwargs -> outcome base.

Definition __init__ (kw : kwargs) : outcome instance :=
  match super_init kw with
  | Raised e => Raised e
  | Done b =>
      match kw_template kw with
      | None => Raised (KeyError (of_string "template"))
      | Some template =>
          if str_eq_dec template (of_string "fuzzing_with_config_file")
          then
            match kw_config_dict kw with
            | None => Raised (KeyError (of_string "config_dict"))
            | Some cdict =>
                match _create_prompt_from_config cdict with
                | Raised e => Raised e
                | Done p =>
                    Done {| self_of :=
                              {| prompt_used := p;
                                 CURRENT_TIME := base_CURRENT_TIME b;
                                 timeout := base_timeout b |};
                            config_dict := cdict;
                            special_eos := None |}
                end
            end
          else
            Raised (NotImplementedError
                      (of_string
                         "Only config-file template is supported for JS"))
      end
  end.

End Construction.

End JSTarget.

(* ================================================================== *)
(** ** The acceptance test in the words of the specification *)
(* ================================================================== *)

Module Spec.

Section Accept.

Variable comment_remover : str -> str.

(** Section 4.2 as written: remove the first occurrence of the begin
    marker, trim, strip the comments, look for the target symbol. *)
Definition accept (self : JSTarget.t) (candidate : str) : bool :=
  let p := JSTarget.prompt_used self in
  contains (JSTarget.target_api p)
    (comment_remover
       (strip (replace_first (JSTarget.begin p) [] candidate))).

End Accept.

(** What the host does with the command of [validate_individual]. *)
Definition node_run (host : machine) (self : JSTarget.t) (filename : str)
    (w : world) : launch :=
  host (fs w) [of_string "node"; filename] (JSTarget.timeout self).

(** The text that [filter] searches and whose lines [clean_code] keeps or
    drops: the candidate without begin markers, trimmed, without
    comments. *)
Definition body (comment_remover : str -> str) (self : JSTarget.t)
    (code : str) : str :=
  comment_remover
    (strip (replace (JSTarget.begin (JSTarget.prompt_used self)) [] code)).

(** The path [write_back_file] writes to. *)
Definition artifact (self : JSTarget.t) : str :=
  of_string "/tmp/temp" ++ JSTarget.CURRENT_TIME self ++ of_string ".js".

End Spec.

(* ================================================================== *)
(** ** Concrete adapters, candidates and hosts *)
(* ================================================================== *)

Module Samples.

Import JSTarget.

(** An adapter with the default prompt. *)
Definition plain : JSTarget.t :=
  {| prompt_used := default_prompt;
     CURRENT_TIME := of_string "1712345678.25";
     timeout := 10 |}.

(** An adapter configured with its own begin marker and target symbol. *)
Definition configured (input_hint api_name : string) : JSTarget.t :=
  {| prompt_used :=
       {| docstring := of_string "Implement code that uses the API.";
          example_code := [];
          separator := of_string "/* === */";
          begin := of_string input_hint;
          hw_prompt := [];
          target_api := of_string api_name |};
     CURRENT_TIME := of_string "1712345678.25";
     timeout := 10 |}.

Definition empty_world : world := {| fs := no_files; children := [] |}.

(** The artifact of [plain]. *)
Definition script : str := of_string "/tmp/temp1712345678.25.js".

(** [node] is installed and the script ends at once, silently. *)
Definition quiet_node : machine :=
  fun files _ _ => Launched (Exits 0 [] []) files.

(** No [node] on the search path. *)
Definition no_node : machine := fun _ _ _ => NoSuchFile.

(** A file called [node] is on the search path but may not be executed. *)
Definition locked_node : machine := fun _ _ _ => NotPermitted.

(** The script does not end. *)
Definition looping_node : machine :=
  fun files _ _ => Launched Overruns files.

(** The script throws: [node] prints the error and ends with status 1. *)
Definition throwing_node : machine :=
  fun files _ _ =>
    Launched (Exits 1 [] (of_string "Uncaught Error: boom")) files.

(** The script calls [process.exit(3)] without printing. *)
Definition silent_failure : machine :=
  fun files _ _ => Launched (Exits 3 [] []) files.

(** The script writes bytes that are not text and ends with [code]. *)
Definition binary_output (code : Z) : machine :=
  fun files _ _ => Launched (ExitsGarbled code) files.

(** The script starts a helper that keeps its output open, and ends
    with status zero at once; the helper outlives the time limit. *)
Definition lingering_helper : machine :=
  fun files _ _ => Launched (ExitsPipesHeld 0) files.

(** [/tmp] can be written to and has room. *)
Definition roomy_tmp : storage := fun _ _ => Opened None.

(** A configuration that names the API and leaves the rest to the
    defaults. *)
Definition flat_target : PyDict.dict str :=
  PyDict.set "api_name" (of_string "Array.prototype.flat") PyDict.empty.

Definition flat_config : config :=
  PyDict.set "target" flat_target
    (PyDict.set "fuzzing" PyDict.empty PyDict.empty).

Definition flat_kwargs : kwargs :=
  {| kw_template := Some (of_string "fuzzing_with_config_file");
     kw_config_dict := Some flat_config |}.

Definition other_kwargs : kwargs :=
  {| kw_template := Some (of_string "fuzzing_with_template");
     kw_config_dict := None |}.

(** A base constructor that succeeds. *)
Definition super_ok : kwargs -> outcome base :=
  fun _ => Done {| base_CURRENT_TIME := of_string "1712345678.25";
                   base_timeout := 10 |}.

End Samples.

(* ================================================================== *)
(** ** Facts about the string primitives *)
(* ================================================================== *)

Module PyStrFacts.

Lemma startswith_app (p r : str) : startswith p (p ++ r) = true.
Proof.
  induction p as [|a p IH]; simpl; [reflexivity|].
  now rewrite N.eqb_refl, IH.
Qed.

Lemma startswith_inv (p s : str) :
  startswith p s = true -> exists r, s = p ++ r.
Proof.
  revert s; induction p as [|a p IH]; intros s H.
  - now exists s.
  - destruct s as [|b s]; simpl in H; [discriminate|].
    apply andb_true_iff in H as [Hab Hps].
    apply N.eqb_eq in Hab; subst b.
    destruct (IH _ Hps) as [r ->]. now exists r.
Qed.

Lemma startswith_nil_r (p : str) : startswith p [] = true -> p = [].
Proof. destruct p; [reflexivity | discriminate]. Qed.

Lemma contains_unfold (t s : str) :
  contains t s =
  startswith t s || match s with [] => false | _ :: r => contains t r end.
Proof. destruct s; reflexivity. Qed.

Lemma Substring_refl (s : str) : Substring s s.
Proof. exists [], []. now rewrite app_nil_r. Qed.

Lemma Substring_trans (a b c : str) :
  Substring a b -> Substring b c -> Substring a c.
Proof.
  intros (x & y & ->) (u & v & ->).
  exists (u ++ x), (y ++ v). now rewrite <- !app_assoc.
Qed.

Lemma Substring_cons (t s : str) (c : char) :
  Substring t s -> Substring t (c :: s).
Proof. intros (a & b & ->). now exists (c :: a), b. Qed.

Lemma Substring_app_l (t s u : str) : Substring t s -> Substring t (u ++ s).
Proof. intros (a & b & ->). exists (u ++ a), b. now rewrite <- app_assoc. Qed.

Lemma Substring_app_r (t s u : str) : Substring t s -> Substring t (s ++ u).
Proof.
  intros (a & b & ->). exists a, (b ++ u). now rewrite <- !app_assoc.
Qed.

(** [contains] decides [Substring]. *)
Lemma contains_Substring (t s : str) :
  contains t s = true <-> Substring t s.
Proof.
  split.
  - induction s as [|c s IH]; rewrite contains_unfold; intros H;
      apply orb_true_iff in H as [H|H].
    + apply startswith_inv in H as [r ->]. now exists [], r.
    + discriminate.
    + apply startswith_inv in H as [r ->]. now exists [], r.
    + now apply Substring_cons, IH.
  - intros (a & b & ->). induction a as [|c a IH].
    + rewrite contains_unfold. simpl. now rewrite startswith_app.
    + simpl. rewrite IH. apply orb_true_r.
Qed.

Lemma contains_false_Substring (t s : str) :
  contains t s = false <-> ~ Substring t s.
Proof.
  rewrite <- contains_Substring. destruct (contains t s); split; intros H;
    try reflexivity; try discriminate; try (intros K; discriminate).
  now elim H.
Qed.

(** *** Lines *)

Lemma split_not_nil (sep : char) (s : str) : split sep s <> [].
Proof.
  destruct s as [|c r]; simpl; [discriminate|].
  destruct (c =? sep)%N; [discriminate|].
  destruct (split sep r); discriminate.
Qed.

Lemma join_cons (sep l : str) (ls : list str) :
  ls <> [] -> join sep (l :: ls) = l ++ sep ++ join sep ls.
Proof. destruct ls; [congruence | reflexivity]. Qed.

Lemma join_split (sep : char) (s : str) : join [sep] (split sep s) = s.
Proof.
  induction s as [|c r IH]; [reflexivity|].
  simpl split. destruct (c =? sep)%N eqn:E.
  - apply N.eqb_eq in E; subst c.
    rewrite join_cons by apply split_not_nil. now rewrite IH.
  - pose proof (split_not_nil sep r) as Hne.
    destruct (split sep r) as [|l ls]; [congruence|].
    rewrite <- IH. destruct ls; reflexivity.
Qed.

Lemma split_no_sep (sep : char) (s : str) :
  Forall (fun l => ~ In sep l) (split sep s).
Proof.
  induction s as [|c r IH]; simpl.
  - constructor; [intros [] | constructor].
  - destruct (c =? sep)%N eqn:E.
    + constructor; [intros [] | exact IH].
    + apply N.eqb_neq in E.
      destruct (split sep r) as [|l ls]; inversion IH; subst.
      * constructor; [|constructor]. intros [H|[]]. congruence.
      * constructor; [|assumption]. intros [H|H]; [congruence | tauto].
Qed.

Lemma split_line_then (sep : char) (l s : str) :
  ~ In sep l -> split sep (l ++ sep :: s) = l :: split sep s.
Proof.
  induction l as [|c l IH]; intros Hl; simpl.
  - now rewrite N.eqb_refl.
  - destruct (c =? sep)%N eqn:E.
    + apply N.eqb_eq in E. elim Hl. now left.
    + rewrite IH; [reflexivity|]. intros H. apply Hl. now right.
Qed.

Lemma split_line (sep : char) (l : str) : ~ In sep l -> split sep l = [l].
Proof.
  induction l as [|c l IH]; intros Hl; simpl; [reflexivity|].
  destruct (c =? sep)%N eqn:E.
  - apply N.eqb_eq in E. elim Hl. now left.
  - rewrite IH; [reflexivity|]. intros H. apply Hl. now right.
Qed.

(** Splitting what was joined gives the lines back. *)
Lemma split_join (sep : char) (ls : list str) :
  ls <> [] -> Forall (fun l => ~ In sep l) ls ->
  split sep (join [sep] ls) = ls.
Proof.
  induction ls as [|l ls IH]; intros Hne Hall; [congruence|].
  inversion Hall as [|? ? Hl Hls]; subst.
  destruct ls as [|l' ls'].
  - simpl. now apply split_line.
  - rewrite join_cons by discriminate.
    simpl app. rewrite split_line_then by assumption.
    f_equal. apply IH; [discriminate | assumption].
Qed.

Lemma Substring_join (sep l : str) (ls : list str) :
  In l ls -> Substring l (join sep ls).
Proof.
  induction ls as [|l0 ls IH]; intros Hin; [destruct Hin|].
  destruct ls as [|l1 ls'].
  - destruct Hin as [->|[]]. apply Substring_refl.
  - rewrite join_cons by discriminate. destruct Hin as [->|Hin].
    + apply Substring_app_r, Substring_refl.
    + apply Substring_app_l, Substring_app_l. now apply IH.
Qed.

Lemma split_prefix (sep : char) (t b : str) :
  ~ In sep t -> exists l ls, split sep (t ++ b) = (t ++ l) :: ls.
Proof.
  induction t as [|d t IH]; intros Ht.
  - simpl app. pose proof (split_not_nil sep b) as Hne.
    destruct (split sep b) as [|l ls]; [congruence|]. now exists l, ls.
  - simpl. destruct (d =? sep)%N eqn:E.
    + apply N.eqb_eq in E. elim Ht. now left.
    + destruct IH as (l & ls & ->); [intros H; apply Ht; now right|].
      now exists l, ls.
Qed.

(** A text without line break that occurs in [s] occurs in one of the
    lines of [s]. *)
Lemma Substring_in_line (t s : str) :
  ~ In nl t -> Substring t s ->
  exists l, In l (split nl s) /\ Substring t l.
Proof.
  intros Ht (a & b & ->). induction a as [|c a IH].
  - destruct (@split_prefix nl t b Ht) as (l & ls & E).
    simpl app. rewrite E. exists (t ++ l). split; [now left|].
    exists [], l. reflexivity.
  - destruct IH as (l & Hin & Hsub). simpl.
    destruct (c =? nl)%N.
    + exists l. split; [now right | assumption].
    + pose proof (split_not_nil nl (a ++ t ++ b)) as Hne.
      destruct (split nl (a ++ t ++ b)) as [|l0 ls]; [congruence|].
      destruct Hin as [->|Hin].
      * exists (c :: l). split; [now left | now apply Substring_cons].
      * exists l. split; [now right | assumption].
Qed.

(** *** Whitespace *)

Lemma blank_app (a b : str) : blank (a ++ b) = blank a && blank b.
Proof. apply forallb_app. Qed.

Lemma blank_rev (s : str) : blank (rev s) = blank s.
Proof.
  induction s as [|c s IH]; [reflexivity|].
  simpl rev. rewrite blank_app, IH. simpl.
  rewrite andb_true_r. apply andb_comm.
Qed.

Lemma lstrip_blank (l s : str) : blank l = true -> lstrip (l ++ s) = lstrip s.
Proof.
  induction l as [|c l IH]; intros H; [reflexivity|].
  simpl in *. apply andb_true_iff in H as [Hc Hl]. rewrite Hc. now apply IH.
Qed.

Lemma lstrip_head (c : char) (r : str) :
  isspace c = false -> lstrip (c :: r) = c :: r.
Proof. intros H. simpl. now rewrite H. Qed.

Lemma lstrip_decomp (s : str) : exists l, blank l = true /\ s = l ++ lstrip s.
Proof.
  induction s as [|c s (l & Hl & E)].
  - now exists [].
  - simpl. destruct (isspace c) eqn:Hc.
    + exists (c :: l). simpl. rewrite Hc, Hl. split; [reflexivity|].
      now rewrite <- E.
    + exists []. split; [reflexivity|]. reflexivity.
Qed.

Lemma lstrip_head_nonspace (s r : str) (c : char) :
  lstrip s = c :: r -> isspace c = false.
Proof.
  induction s as [|d s IH]; simpl; [discriminate|].
  destruct (isspace d) eqn:Hd; [exact IH|].
  intros E. injection E as -> _. exact Hd.
Qed.

Lemma lstrip_nil_iff (s : str) : lstrip s = [] <-> blank s = true.
Proof.
  induction s as [|c s IH]; simpl; [tauto|].
  destruct (isspace c); simpl; [exact IH|].
  split; discriminate.
Qed.

Lemma strip_nil_iff (s : str) : strip s = [] <-> blank s = true.
Proof.
  unfold strip, rstrip. split.
  - intros H. apply (f_equal (@rev char)) in H. rewrite rev_involutive in H.
    simpl in H. apply lstrip_nil_iff in H. rewrite blank_rev in H.
    destruct (lstrip s) as [|c r] eqn:E; [now apply lstrip_nil_iff|].
    apply lstrip_head_nonspace in E. simpl in H. now rewrite E in H.
  - intros H. apply lstrip_nil_iff in H. now rewrite H.
Qed.

Lemma Trim_strip (s : str) : Trim s (strip s).
Proof.
  destruct (lstrip_decomp s) as (l & Hl & Es).
  destruct (lstrip_decomp (rev (lstrip s))) as (l2 & Hl2 & Eu).
  assert (Eu' : lstrip s = strip s ++ rev l2).
  { unfold strip, rstrip. rewrite <- rev_app_distr, <- Eu.
    now rewrite rev_involutive. }
  exists l, (rev l2). repeat split.
  - now rewrite <- Eu'.
  - exact Hl.
  - now rewrite blank_rev.
  - intros c r E. rewrite E in Eu'. simpl in Eu'.
    now apply lstrip_head_nonspace in Eu'.
  - intros c r E. unfold strip, rstrip in E.
    apply (f_equal (@rev char)) in E.
    rewrite rev_involutive, rev_app_distr in E. simpl in E.
    now apply lstrip_head_nonspace in E.
Qed.

Lemma Trim_unique (t m : str) : Trim t m -> m = strip t.
Proof.
  intros (l & r & -> & Hl & Hr & Hfirst & Hlast).
  unfold strip, rstrip. rewrite lstrip_blank by assumption.
  destruct m as [|c m'].
  - simpl app. apply lstrip_nil_iff in Hr. now rewrite Hr.
  - simpl app. rewrite lstrip_head by now apply (Hfirst c m').
    change (c :: m' ++ r) with ((c :: m') ++ r).
    rewrite rev_app_distr, lstrip_blank by now rewrite blank_rev.
    destruct (@exists_last _ (c :: m')) as (x & d & E); [discriminate|].
    rewrite E, rev_app_distr. simpl app.
    rewrite lstrip_head by now apply (Hlast d x).
    change (d :: rev x) with (rev [d] ++ rev x).
    now rewrite <- rev_app_distr, rev_involutive.
Qed.

(** *** Replacement *)

Lemma flat_map_single (s : str) : flat_map (fun c => [c]) s = s.
Proof. induction s as [|c s IH]; simpl; [reflexivity | now rewrite IH]. Qed.

Lemma replace_empty_marker (s : str) : replace [] [] s = s.
Proof. unfold replace. simpl. apply flat_map_single. Qed.

Lemma replace_scan_skip (old new p s : str) :
  replace_scan old new (length p) (p ++ s) = replace_scan old new 0 s.
Proof.
  induction p as [|c p IH]; simpl; [|exact IH].
  destruct s; reflexivity.
Qed.

Lemma replace_end (old new : str) : old <> [] -> replace old new [] = [].
Proof. destruct old; [congruence | reflexivity]. Qed.

(** An occurrence at the head is replaced and the scan goes on after it. *)
Lemma replace_hit (old new s : str) :
  old <> [] -> replace old new (old ++ s) = new ++ replace old new s.
Proof.
  destruct old as [|o old']; [congruence | intros _].
  unfold replace. change ((o :: old') ++ s) with (o :: old' ++ s).
  cbn [replace_scan].
  change (o :: old' ++ s) with ((o :: old') ++ s).
  rewrite startswith_app. cbn [length]. rewrite Nat.sub_succ, Nat.sub_0_r.
  now rewrite replace_scan_skip.
Qed.

(** No occurrence at the head: the character is kept. *)
Lemma replace_keep (old new s : str) (c : char) :
  startswith old (c :: s) = false ->
  replace old new (c :: s) = c :: replace old new s.
Proof.
  intros H. destruct old as [|o old']; [discriminate|].
  unfold replace. cbn [replace_scan]. now rewrite H.
Qed.

Lemma replace_absent (old new s : str) :
  old <> [] -> contains old s = false -> replace old new s = s.
Proof.
  intros Hne. induction s as [|c s IH]; intros H.
  - now apply replace_end.
  - rewrite contains_unfold in H. apply orb_false_iff in H as [H1 H2].
    rewrite replace_keep by assumption. now rewrite IH.
Qed.

Lemma RemovedAll_replace (b s t : str) :
  RemovedAll b s t -> t = replace b [] s.
Proof.
  induction 1 as [s Hb| |s t Hb _ IH|c s t Hc _ IH].
  - subst b. now rewrite replace_empty_marker.
  - destruct b; reflexivity.
  - now rewrite replace_hit.
  - rewrite replace_keep by assumption. now rewrite IH.
Qed.

Lemma replace_RemovedAll (b s : str) : RemovedAll b s (replace b [] s).
Proof.
  destruct b as [|o b'] eqn:Eb.
  - rewrite replace_empty_marker. now apply RA_no_marker.
  - rewrite <- Eb. assert (Hne : b <> []) by (rewrite Eb; discriminate).
    clear Eb. remember (length s) as n eqn:En.
    revert s En. induction n as [n IH] using lt_wf_ind. intros s En.
    destruct s as [|c s'].
    + rewrite replace_end by assumption. apply RA_end.
    + destruct (startswith b (c :: s')) eqn:E.
      * apply startswith_inv in E as [r E]. rewrite E.
        rewrite replace_hit by assumption. simpl app.
        apply RA_hit; [assumption|].
        apply (IH (length r)); [|reflexivity].
        rewrite En, E, length_app. destruct b; [congruence | simpl; lia].
      * rewrite replace_keep by assumption.
        apply RA_keep; [assumption|].
        apply (IH (length s')); [|reflexivity]. rewrite En. simpl. lia.
Qed.

(** *** The model of the comment remover *)

(** A text without slash has no comment and is returned as it is. *)
Lemma comment_remover_plain (s : str) :
  ~ In slash s -> Util.comment_remover s = s.
Proof.
  unfold Util.comment_remover. induction s as [|c r IH]; intros H.
  - reflexivity.
  - assert (Hc : (c =? slash)%N = false).
    { apply N.eqb_neq. intros ->. apply H. now left. }
    assert (Hr : ~ In slash r) by (intros K; apply H; now right).
    specialize (IH Hr). cbn [Util.scan]. rewrite Hc. cbn [andb].
    destruct r as [|d r']; [reflexivity|]. now rewrite IH.
Qed.

End PyStrFacts.

(* ================================================================== *)
(** ** Acceptance and normalisation *)
(* ================================================================== *)

Module FilterProps.

Import PyStrFacts JSTarget.

Section AnyCommentRemover.

Variable comment_remover : str -> str.

Lemma kept_not_blank (ln : str) : blank ln = false -> kept ln = true.
Proof.
  intros H. unfold kept. destruct (strip ln) eqn:E; [|reflexivity].
  apply strip_nil_iff in E. congruence.
Qed.

Lemma kept_nil : kept [] = false.
Proof. reflexivity. Qed.

Lemma Substring_blank (t l : str) :
  Substring t l -> blank l = true -> blank t = true.
Proof.
  intros (a & b & ->) H. rewrite !blank_app in H.
  apply andb_true_iff in H as [_ H]. now apply andb_true_iff in H as [H _].
Qed.

Lemma filter_all (f : str -> bool) (ls : list str) :
  Forall (fun l => f l = true) ls -> List.filter f ls = ls.
Proof.
  induction 1 as [|l ls Hl _ IH]; simpl; [reflexivity|].
  now rewrite Hl, IH.
Qed.

(** Dropping the blank lines of a text whose blank lines were dropped
    changes nothing. *)
Lemma drop_blank_lines_twice (code : str) :
  let once := join [nl] (List.filter kept (split nl code)) in
  join [nl] (List.filter kept (split nl once)) = once.
Proof.
  intros once. subst once.
  pose proof (split_no_sep nl code) as Hsep.
  set (ls := List.filter kept (split nl code)).
  assert (Hkept : Forall (fun l => kept l = true) ls).
  { apply Forall_forall. intros l Hl. now apply filter_In in Hl. }
  assert (Hnl : Forall (fun l => ~ In nl l) ls).
  { apply Forall_forall. intros l Hl. apply filter_In in Hl as [Hl _].
    revert l Hl. now apply Forall_forall. }
  destruct ls as [|l ls'] eqn:E.
  - reflexivity.
  - rewrite split_join; [|discriminate|assumption].
    now rewrite filter_all.
Qed.

(** The text both [filter] and [clean_code] compute first. *)
Lemma clean_code_unfold (self : t) (code : str) :
  clean_code comment_remover self code =
  join [nl]
    (List.filter kept
       (split nl
          (comment_remover
             (strip (replace (begin (prompt_used self)) [] code))))).
Proof. reflexivity. Qed.

(** C2 (as amended).  For a target symbol that has no line break and is
    not made of whitespace only (it may be empty), every candidate that
    [filter] accepts has the target symbol in its normalised source
    [clean_code]. *)
Theorem filter_sound (self : t) (code : str) :
  ~ In nl (target_api (prompt_used self)) ->
  target_api (prompt_used self) = [] \/
    blank (target_api (prompt_used self)) = false ->
  filter comment_remover self code = true ->
  contains (target_api (prompt_used self))
    (clean_code comment_remover self code) = true.
Proof.
  intros Hnl Hvis Hacc. rewrite clean_code_unfold.
  unfold filter in Hacc. cbv zeta in Hacc.
  set (body := comment_remover _) in *.
  set (target := target_api _) in *.
  destruct Hvis as [Hempty|Hvis].
  - rewrite Hempty. rewrite contains_unfold. reflexivity.
  - apply contains_Substring in Hacc.
    destruct (Substring_in_line Hnl Hacc) as (l & Hin & Hsub).
    apply contains_Substring.
    apply Substring_trans with (b := l); [assumption|].
    apply Substring_join. apply filter_In. split; [assumption|].
    apply kept_not_blank.
    destruct (blank l) eqn:Hl; [|reflexivity].
    rewrite (Substring_blank Hsub Hl) in Hvis. discriminate.
Qed.

(** C3 (as amended).  [filter] removes every occurrence of the begin
    marker (found from the left, without overlap), trims the whitespace
    around the rest, strips the comments, and accepts exactly when the
    target symbol occurs in what remains.  The two intermediate texts
    are determined by the candidate. *)
Theorem filter_removes_every_marker (self : t) (code : str) :
  exists unmarked trimmed,
    RemovedAll (begin (prompt_used self)) code unmarked /\
    Trim unmarked trimmed /\
    (forall u m,
        RemovedAll (begin (prompt_used self)) code u -> Trim u m ->
        u = unmarked /\ m = trimmed) /\
    (filter comment_remover self code = true <->
     Substring (target_api (prompt_used self)) (comment_remover trimmed)).
Proof.
  exists (replace (begin (prompt_used self)) [] code).
  exists (strip (replace (begin (prompt_used self)) [] code)).
  split; [apply replace_RemovedAll|].
  split; [apply Trim_strip|].
  split.
  - intros u m Hu Hm. apply RemovedAll_replace in Hu. subst u.
    split; [reflexivity | now apply Trim_unique].
  - unfold filter. cbv zeta. apply contains_Substring.
Qed.

(** C5 (as amended).  A second [clean_code] returns the normalised
    source unchanged whenever the first result holds no begin marker,
    has no whitespace around it and is left alone by the comment
    remover: what the last step does, dropping the blank lines and
    joining the rest in order, is idempotent. *)
Theorem clean_code_idempotent_when_settled (self : t) (code : str) :
  let once := clean_code comment_remover self code in
  begin (prompt_used self) = [] \/
    contains (begin (prompt_used self)) once = false ->
  strip once = once ->
  comment_remover once = once ->
  clean_code comment_remover self once = once.
Proof.
  intros once Hmarker Htrim Hcomments.
  rewrite (clean_code_unfold self once).
  assert (Hrep : replace (begin (prompt_used self)) [] once = once).
  { destruct Hmarker as [E|Habsent].
    - rewrite E. apply replace_empty_marker.
    - destruct (begin (prompt_used self)) as [|b0 b'] eqn:Eb.
      + apply replace_empty_marker.
      + apply replace_absent; [discriminate | assumption]. }
  rewrite Hrep, Htrim, Hcomments.
  unfold once. rewrite clean_code_unfold. apply drop_blank_lines_twice.
Qed.

(** The three failures below do not hinge on how comments are removed:
    they arise with every comment remover that returns a text without
    slash as it is. *)
Section PlainText.

Hypothesis plain : forall s, ~ In slash s -> comment_remover s = s.

Ltac no_slash := vm_compute; intuition discriminate.

Lemma filter_blank_target_any :
  let self := Samples.configured "// Write code below" " " in
  let code := text ["f(1)"; " "; "g(2)"] in
  filter comment_remover self code = true /\
  contains (target_api (prompt_used self))
    (clean_code comment_remover self code) = false.
Proof.
  intros self code. rewrite clean_code_unfold. unfold filter. cbv zeta.
  assert (E : strip (replace (begin (prompt_used self)) [] code) = code)
    by reflexivity.
  rewrite E, plain by no_slash. split; reflexivity.
Qed.

Lemma filter_second_marker_any :
  let self := Samples.configured "BEGIN" "foo" in
  let code := of_string "BEGIN fBEGINoo" in
  filter comment_remover self code = true /\
  Spec.accept comment_remover self code = false.
Proof.
  intros self code. unfold filter, Spec.accept. cbv zeta.
  assert (E1 : strip (replace (begin (prompt_used self)) [] code)
               = of_string "foo") by reflexivity.
  assert (E2 : strip (replace_first (begin (prompt_used self)) [] code)
               = of_string "fBEGINoo") by reflexivity.
  rewrite E1, E2, !plain by no_slash. split; reflexivity.
Qed.

Lemma clean_code_twice_any :
  let self := Samples.configured "BEGIN" "foo" in
  let code := text ["BEBEGINGIN"; "foo()"] in
  clean_code comment_remover self (clean_code comment_remover self code)
  <> clean_code comment_remover self code.
Proof.
  intros self code.
  assert (E1 : clean_code comment_remover self code
               = text ["BEGIN"; "foo()"]).
  { rewrite clean_code_unfold.
    assert (E : strip (replace (begin (prompt_used self)) [] code)
                = text ["BEGIN"; "foo()"]) by reflexivity.
    rewrite E, plain by no_slash. reflexivity. }
  rewrite E1, clean_code_unfold.
  assert (E : strip (replace (begin (prompt_used self)) []
                       (text ["BEGIN"; "foo()"])) = of_string "foo()")
    by reflexivity.
  rewrite E, plain by no_slash. vm_compute. discriminate.
Qed.

End PlainText.

End AnyCommentRemover.

(** *** On concrete candidates *)

(** C2: with a target symbol that is one space, the candidate
    [f(1)], blank line, [g(2)] is accepted and its normalised source
    has no space. *)
Lemma filter_sound_counterexample :
  let self := Samples.configured "// Write code below" " " in
  let code := text ["f(1)"; " "; "g(2)"] in
  filter Util.comment_remover self code = true /\
  contains (target_api (prompt_used self))
    (clean_code Util.comment_remover self code) = false.
Proof. vm_compute. split; reflexivity. Qed.

Lemma filter_sound_witness :
  let self := Samples.plain in
  let code := text ["// Write code below"; "targetApi(1);"; " ";
                    "  // done"] in
  contains (target_api (prompt_used self))
    (clean_code Util.comment_remover self code) = true.
Proof.
  intros self code.
  apply (@filter_sound Util.comment_remover self code).
  - vm_compute. intuition discriminate.
  - right. reflexivity.
  - reflexivity.
Defined.

(** C3: with the begin marker [BEGIN] and the target symbol [foo], the
    candidate [BEGIN fBEGINoo] is accepted by [filter], which removes
    both markers, and refused by the test that removes the first one
    only. *)
Lemma filter_first_marker_counterexample :
  let self := Samples.configured "BEGIN" "foo" in
  let code := of_string "BEGIN fBEGINoo" in
  filter Util.comment_remover self code = true /\
  Spec.accept Util.comment_remover self code = false.
Proof. vm_compute. split; reflexivity. Qed.

(** C5: with the begin marker [BEGIN], normalising the two lines
    [BEBEGINGIN] and [foo()] leaves a begin marker that a second
    normalisation removes. *)
Lemma clean_code_idempotent_counterexample :
  let self := Samples.configured "BEGIN" "foo" in
  let code := text ["BEBEGINGIN"; "foo()"] in
  clean_code Util.comment_remover self code = text ["BEGIN"; "foo()"] /\
  clean_code Util.comment_remover self
    (clean_code Util.comment_remover self code) = of_string "foo()".
Proof. vm_compute. split; reflexivity. Qed.

(** With the default prompt, a candidate that opens with a block
    comment keeps the space after it, and a second normalisation trims
    it. *)
Example clean_code_leading_comment :
  let self := Samples.plain in
  let code := of_string "/* setup */ targetApi();" in
  clean_code Util.comment_remover self code = of_string " targetApi();" /\
  clean_code Util.comment_remover self
    (clean_code Util.comment_remover self code) = of_string "targetApi();".
Proof. vm_compute. split; reflexivity. Qed.

Lemma clean_code_idempotent_witness :
  let self := Samples.plain in
  let code := text ["// Write code below"; "targetApi(1);"; " ";
                    "  // done"; "targetApi(/* twice */ 2);"] in
  clean_code Util.comment_remover self
    (clean_code Util.comment_remover self code) =
  clean_code Util.comment_remover self code.
Proof.
  intros self code.
  apply (@clean_code_idempotent_when_settled Util.comment_remover self code).
  - right. reflexivity.
  - reflexivity.
  - reflexivity.
Defined.

End FilterProps.

(* ================================================================== *)
(** ** Running the interpreter and classifying the run *)
(* ================================================================== *)

Module ValidateProps.

Import JSTarget.

Lemma fresh_not_in (pids : list nat) : ~ In (fresh pids) pids.
Proof.
  intros H. unfold fresh in H.
  assert (Hle : Forall (fun k => k <= list_max pids) pids)
    by now apply list_max_le.
  rewrite Forall_forall in Hle. apply Hle in H. lia.
Qed.

(** A child that was spawned and then reaped leaves the table of live
    children as it was. *)
Lemma reap_spawn (after : files) (w : world) :
  let (pid, w1) := spawn after w in
  reap pid w1 = {| fs := after; children := children w |}.
Proof.
  unfold spawn, reap. cbn [fs children].
  rewrite remove_cons. now rewrite notin_remove by apply fresh_not_in.
Qed.

Lemma subprocess_run_launched (m : machine) (args : list str) (limit : Z)
    (w : world) (b : behaviour) (after : files) :
  m (fs w) args limit = Launched b after ->
  subprocess_run m args limit w =
  (match b with
   | Exits code out err => Ret (Completed code out err)
   | ExitsGarbled _ => Raise UnicodeDecodeError
   | ExitsPipesHeld _ => Raise TimeoutExpired
   | Overruns => Raise TimeoutExpired
   end,
   {| fs := after; children := children w |}).
Proof.
  intros H. unfold subprocess_run. rewrite H.
  pose proof (reap_spawn after w) as R.
  destruct (spawn after w) as [pid w1]. rewrite R. now destruct b.
Qed.

Section AnyHost.

Variable host : machine.

(** C1 (as amended).  [validate_individual] returns [SAFE] exactly when
    [subprocess.run] returned with exit status zero: [node] ended within
    the time limit with status zero, its pipes were closed and both
    captured streams were text.  The diagnostic is then the captured
    standard output, or [ok] when that is empty. *)
Theorem validate_safe_iff (self : t) (filename : str) (w : world)
    (diagnostic : str) :
  fst (validate_individual host self filename w) = Ret (SAFE, diagnostic)
  <->
  exists out err after,
    Spec.node_run host self filename w = Launched (Exits 0 out err) after /\
    (out <> [] -> diagnostic = out) /\
    (out = [] -> diagnostic = of_string "ok").
Proof.
  unfold validate_individual, Spec.node_run. split.
  - destruct (host (fs w) [of_string "node"; filename] (timeout self))
      as [| |e|b after] eqn:E.
    + unfold subprocess_run. rewrite E. discriminate.
    + unfold subprocess_run. rewrite E. discriminate.
    + unfold subprocess_run. rewrite E. destruct e; discriminate.
    + rewrite (subprocess_run_launched _ _ _ _ E).
      destruct b as [code out err|code|code|]; simpl; try discriminate.
      destruct (code =? 0)%Z eqn:Hc; simpl; [|discriminate].
      apply Z.eqb_eq in Hc. subst code. intros H. injection H as <-.
      exists out, err, after. split; [reflexivity|].
      destruct out; split; intros K; try reflexivity; congruence.
  - intros (out & err & after & E & Hfull & Hempty).
    rewrite (subprocess_run_launched _ _ _ _ E). simpl.
    destruct out as [|c out].
    + now rewrite Hempty.
    + now rewrite Hfull.
Qed.

(** C4 (as amended).  When [subprocess.run] returns with a nonzero exit
    status ([node] ended within the time limit, its pipes were closed
    and both captured streams were text), [validate_individual] returns
    [FAILURE]; the diagnostic is the captured standard error if that is
    not empty, and the captured standard output otherwise. *)
Theorem validate_failure (self : t) (filename : str) (w : world)
    (code : Z) (out err : str) (after : files) :
  Spec.node_run host self filename w = Launched (Exits code out err) after ->
  code <> 0%Z ->
  exists diagnostic,
    fst (validate_individual host self filename w)
      = Ret (FAILURE, diagnostic) /\
    (err <> [] -> diagnostic = err) /\
    (err = [] -> diagnostic = out).
Proof.
  intros E Hcode. unfold validate_individual, Spec.node_run in *.
  rewrite (subprocess_run_launched _ _ _ _ E). simpl.
  apply Z.eqb_neq in Hcode. rewrite Hcode. simpl.
  exists (or_else err out). split; [reflexivity|].
  destruct err; split; intros K; try reflexivity; congruence.
Qed.

(** C10.  When [node] ends within the time limit with a nonzero exit
    status and wrote nothing to either stream, [validate_individual]
    returns [FAILURE] with the empty diagnostic. *)
Theorem validate_failure_silent (self : t) (filename : str) (w : world)
    (code : Z) (after : files) :
  Spec.node_run host self filename w = Launched (Exits code [] []) after ->
  code <> 0%Z ->
  fst (validate_individual host self filename w) = Ret (FAILURE, []).
Proof.
  intros E Hcode. unfold validate_individual, Spec.node_run in *.
  rewrite (subprocess_run_launched _ _ _ _ E). simpl.
  apply Z.eqb_neq in Hcode. now rewrite Hcode.
Qed.

(** C7 (as amended).  On a host where [node] cannot be located, every
    [validate_individual] returns [ERROR] with the diagnostic
    [node-not-found], whatever file it is given, and changes nothing. *)
Theorem validate_node_not_found (self : t) :
  (forall files filename limit,
      host files [of_string "node"; filename] limit = NoSuchFile) ->
  forall filename w,
    validate_individual host self filename w =
    (Ret (ERROR, of_string "node-not-found"), w).
Proof.
  intros Hmissing filename w.
  unfold validate_individual, subprocess_run. now rewrite Hmissing.
Qed.

(** C8.  When [node] is still running at the time limit,
    [validate_individual] returns [TIMED_OUT] with the diagnostic
    [javascript], and the child it started is not among the live
    children afterwards: the table of children is as before the call. *)
Theorem validate_timed_out (self : t) (filename : str) (w : world)
    (after : files) :
  Spec.node_run host self filename w = Launched Overruns after ->
  let (result, w') := validate_individual host self filename w in
  result = Ret (TIMED_OUT, of_string "javascript") /\
  children w' = children w /\
  ~ In (fst (spawn after w)) (children w').
Proof.
  intros E. unfold validate_individual, Spec.node_run in *.
  rewrite (subprocess_run_launched _ _ _ _ E). simpl.
  repeat split. apply fresh_not_in.
Qed.

(** *** The artifact *)

Lemma write_file_same (path content : str) (files0 : files) :
  write_file path content files0 path = Some content.
Proof.
  unfold write_file. destruct (str_eq_dec path path); congruence.
Qed.

Lemma validate_individual_world (self : t) (filename : str) (w : world) :
  snd (validate_individual host self filename w) =
  snd (subprocess_run host [of_string "node"; filename] (timeout self) w).
Proof.
  unfold validate_individual.
  destruct (subprocess_run host _ (timeout self) w) as [[done|e] w'].
  - now destruct (returncode done =? 0)%Z.
  - now destruct e.
Qed.

Lemma subprocess_run_files (args : list str) (limit : Z) (w : world) :
  fs (snd (subprocess_run host args limit w)) =
  match host (fs w) args limit with
  | Launched _ after => after
  | _ => fs w
  end.
Proof.
  destruct (host (fs w) args limit) as [| |e|b after] eqn:E.
  - unfold subprocess_run. now rewrite E.
  - unfold subprocess_run. now rewrite E.
  - unfold subprocess_run. now rewrite E.
  - now rewrite (subprocess_run_launched _ _ _ _ E).
Qed.

Section AnyCommentRemover.

Variable comment_remover : str -> str.
Variable tmp : storage.

(** What [write_back_file] gives, by what the host does with the
    artifact. *)
Lemma write_back_file_result (self : t) (code : str) (w : world) :
  write_back_file comment_remover tmp self code w =
  let wb := Spec.artifact self in
  let source := clean_code comment_remover self code in
  let holding content :=
    {| fs := write_file wb content (fs w); children := children w |} in
  match tmp (fs w) wb with
  | OpenFails e => (Raise e, w)
  | Opened fault =>
      if encodable source then
        match fault with
        | None => (Ret wb, holding source)
        | Some (e, rest) => (Raise e, holding rest)
        end
      else (Raise UnicodeEncodeError, holding [])
  end.
Proof. reflexivity. Qed.

(** C6 (as amended).  Once [write_back_file] has opened the artifact,
    the validation call never removes it.  Unless the interpreted
    program itself touches the file, the artifact is there when the call
    returns, on every exit path: it holds the normalised source when the
    write went through (whatever the outcome of the run, a propagated
    error included), it is empty when the source could not be encoded,
    and it holds what the failed write left otherwise. *)
Theorem artifact_left_behind (self : t) (code : str) (w : world)
    (fault : option (exn * str)) :
  tmp (fs w) (Spec.artifact self) = Opened fault ->
  (forall wb w1 b after,
      write_back_file comment_remover tmp self code w = (Ret wb, w1) ->
      Spec.node_run host self wb w1 = Launched b after ->
      after wb = fs w1 wb) ->
  fs (snd (validate comment_remover host tmp self code w))
     (Spec.artifact self)
  = Some (if encodable (clean_code comment_remover self code)
          then match fault with
               | None => clean_code comment_remover self code
               | Some (_, rest) => rest
               end
          else []).
Proof.
  intros Hopen Hkeeps. unfold validate.
  rewrite write_back_file_result in *. cbv zeta in *.
  rewrite Hopen in *.
  destruct (encodable (clean_code comment_remover self code));
    [|apply write_file_same].
  destruct fault as [[e rest]|]; [apply write_file_same|].
  rewrite validate_individual_world, subprocess_run_files. cbn [fs].
  pose proof (fun b after => Hkeeps _ _ b after eq_refl) as Hk.
  unfold Spec.node_run in Hk. cbn [fs] in Hk.
  match goal with
  | |- match ?h with _ => _ end _ = _ => destruct h as [| |e|b after] eqn:E
  end; try apply write_file_same.
  rewrite (Hk b after eq_refl). apply write_file_same.
Qed.


End AnyCommentRemover.

End AnyHost.

(** *** On concrete hosts *)

(** C1 at a run that ends at once without output: [SAFE] and [ok]. *)
Example validate_quiet_script :
  fst (validate_individual Samples.quiet_node Samples.plain Samples.script
         Samples.empty_world) = Ret (SAFE, of_string "ok").
Proof. reflexivity. Qed.

(** C1: a script that writes bytes that are not text and ends with
    status zero, well within the time limit, does not give [SAFE]: the
    error of decoding its output leaves [validate_individual]. *)
Lemma validate_safe_counterexample :
  exit_status
    (Spec.node_run (Samples.binary_output 0) Samples.plain Samples.script
       Samples.empty_world) = Some 0%Z /\
  fst (validate_individual (Samples.binary_output 0) Samples.plain
         Samples.script Samples.empty_world) = Raise UnicodeDecodeError.
Proof. split; reflexivity. Qed.

(** A script that ended with status zero in time but left a helper
    holding its output is reported as [TIMED_OUT]. *)
Example validate_pipes_held :
  exit_status
    (Spec.node_run Samples.lingering_helper Samples.plain Samples.script
       Samples.empty_world) = Some 0%Z /\
  fst (validate_individual Samples.lingering_helper Samples.plain
         Samples.script Samples.empty_world)
    = Ret (TIMED_OUT, of_string "javascript").
Proof. split; reflexivity. Qed.

(** C4: the same script ending with status one does not give
    [FAILURE]. *)
Lemma validate_failure_counterexample :
  exit_status
    (Spec.node_run (Samples.binary_output 1) Samples.plain Samples.script
       Samples.empty_world) = Some 1%Z /\
  fst (validate_individual (Samples.binary_output 1) Samples.plain
         Samples.script Samples.empty_world) = Raise UnicodeDecodeError.
Proof. split; reflexivity. Qed.

Lemma validate_failure_witness :
  exists diagnostic,
    fst (validate_individual Samples.throwing_node Samples.plain Samples.script
           Samples.empty_world) = Ret (FAILURE, diagnostic) /\
    (of_string "Uncaught Error: boom" <> [] ->
     diagnostic = of_string "Uncaught Error: boom") /\
    (of_string "Uncaught Error: boom" = [] -> diagnostic = []).
Proof.
  apply (@validate_failure Samples.throwing_node Samples.plain Samples.script
           Samples.empty_world 1%Z [] (of_string "Uncaught Error: boom")
           no_files).
  - reflexivity.
  - lia.
Defined.

Lemma validate_failure_silent_witness :
  fst (validate_individual Samples.silent_failure Samples.plain Samples.script
         Samples.empty_world) = Ret (FAILURE, []).
Proof.
  apply (@validate_failure_silent Samples.silent_failure Samples.plain
           Samples.script Samples.empty_world 3%Z no_files).
  - reflexivity.
  - lia.
Defined.

(** C7: a file [node] that may not be executed cannot be launched, and
    [validate_individual] does not return: the error of the launch
    propagates to the caller. *)
Lemma validate_not_launched_counterexample :
  Spec.node_run Samples.locked_node Samples.plain Samples.script Samples.empty_world
    = NotPermitted /\
  fst (validate_individual Samples.locked_node Samples.plain Samples.script
         Samples.empty_world) = Raise PermissionError.
Proof. split; reflexivity. Qed.

Lemma validate_node_not_found_witness :
  validate_individual Samples.no_node Samples.plain Samples.script
    Samples.empty_world =
  (Ret (ERROR, of_string "node-not-found"), Samples.empty_world).
Proof.
  apply (@validate_node_not_found Samples.no_node Samples.plain).
  intros files filename limit. reflexivity.
Defined.

Lemma validate_timed_out_witness :
  let (result, w') :=
    validate_individual Samples.looping_node Samples.plain Samples.script
      Samples.empty_world in
  result = Ret (TIMED_OUT, of_string "javascript") /\
  children w' = children Samples.empty_world /\
  ~ In (fst (spawn no_files Samples.empty_world)) (children w').
Proof.
  apply (@validate_timed_out Samples.looping_node Samples.plain Samples.script
           Samples.empty_world no_files).
  reflexivity.
Defined.

(** C6: the candidate declares the target and does nothing else; [node]
    ends at once with status zero, the call returns [SAFE], and the
    artifact is still in [/tmp] with the normalised source in it. *)
Lemma artifact_removed_counterexample :
  let code := text ["// Write code below"; "var targetApi = 1;"] in
  let (result, w') :=
    validate Util.comment_remover Samples.quiet_node Samples.roomy_tmp
      Samples.plain code Samples.empty_world in
  result = Ret (SAFE, of_string "ok") /\
  fs w' Samples.script = Some (of_string "var targetApi = 1;").
Proof. vm_compute. split; reflexivity. Qed.

Lemma artifact_left_behind_witness :
  let code := text ["// Write code below"; "targetApi(1);"] in
  fs (snd (validate Util.comment_remover Samples.looping_node
             Samples.roomy_tmp Samples.plain code Samples.empty_world))
     (Spec.artifact Samples.plain)
  = Some (if encodable (clean_code Util.comment_remover Samples.plain code)
          then clean_code Util.comment_remover Samples.plain code
          else []).
Proof.
  intros code.
  apply (@artifact_left_behind Samples.looping_node Util.comment_remover
           Samples.roomy_tmp Samples.plain code Samples.empty_world None).
  - reflexivity.
  - intros wb w1 b after Hw E. injection E as _ <-. reflexivity.
Defined.

(** A candidate with a lone surrogate cannot be encoded: the call raises
    and leaves the artifact empty. *)
Example artifact_of_unencodable_source :
  let code := of_string "targetApi(" ++ [55357%N] ++ of_string ");" in
  let (result, w') :=
    validate Util.comment_remover Samples.quiet_node Samples.roomy_tmp
      Samples.plain code Samples.empty_world in
  result = Raise UnicodeEncodeError /\ fs w' Samples.script = Some [].
Proof. vm_compute. split; reflexivity. Qed.



End ValidateProps.

(* ================================================================== *)
(** ** The shape of the normalised source *)
(* ================================================================== *)

Module NormalFormProps.

Import PyStrFacts FilterProps JSTarget.

Lemma replace_marker_prefix (b s : str) :
  replace b [] (b ++ s) = replace b [] s.
Proof.
  destruct b as [|c b'] eqn:E.
  - reflexivity.
  - rewrite <- E. apply replace_hit. rewrite E. discriminate.
Qed.

Lemma kept_iff_not_blank (ln : str) : kept ln = true <-> blank ln = false.
Proof.
  split; [|apply kept_not_blank].
  unfold kept. intros H. destruct (blank ln) eqn:B; [|reflexivity].
  apply strip_nil_iff in B. rewrite B in H. discriminate.
Qed.

Lemma kept_false_iff_blank (ln : str) : kept ln = false <-> blank ln = true.
Proof.
  pose proof (kept_iff_not_blank ln) as H.
  destruct (kept ln), (blank ln); intuition congruence.
Qed.

Lemma filter_none (f : str -> bool) (ls : list str) :
  List.filter f ls = [] <-> Forall (fun l => f l = false) ls.
Proof.
  induction ls as [|l ls IH]; simpl.
  - split; [constructor | reflexivity].
  - destruct (f l) eqn:E.
    + split; [discriminate|]. intros H. inversion H; congruence.
    + rewrite IH. split; [now constructor|]. intros H. now inversion H.
Qed.

Lemma blank_join (ls : list str) :
  blank (join [nl] ls) = forallb blank ls.
Proof.
  induction ls as [|l ls IH]; [reflexivity|].
  destruct ls as [|l' ls'].
  - simpl. now rewrite andb_true_r.
  - rewrite join_cons by discriminate. rewrite !blank_app, IH.
    reflexivity.
Qed.

Lemma join_kept_nil (ls : list str) :
  Forall (fun l => kept l = true) ls -> join [nl] ls = [] -> ls = [].
Proof.
  intros Hall Hj. destruct ls as [|l ls]; [reflexivity|].
  inversion Hall as [|? ? Hl _]; subst.
  destruct l as [|c l']; [discriminate Hl|].
  destruct ls; discriminate Hj.
Qed.

Lemma Substring_nil (t : str) : Substring t [] -> t = [].
Proof.
  intros (a & b & E). symmetry in E.
  apply app_eq_nil in E as [_ E]. now apply app_eq_nil in E as [E _].
Qed.

Section AnyCommentRemover.

Variable comment_remover : str -> str.

Lemma kept_lines_split (self : t) (code : str) :
  let ls := List.filter kept (split nl (Spec.body comment_remover self code)) in
  ls <> [] -> split nl (clean_code comment_remover self code) = ls.
Proof.
  intros ls Hne. rewrite clean_code_unfold.
  fold (Spec.body comment_remover self code). fold ls.
  apply split_join; [assumption|].
  apply Forall_forall. intros l Hl. apply filter_In in Hl as [Hl _].
  pose proof (split_no_sep nl (Spec.body comment_remover self code)) as Hsep.
  rewrite Forall_forall in Hsep. now apply Hsep.
Qed.

(** A begin marker at the head of the candidate, as the caller puts it
    there, changes neither the verdict of [filter] nor the normalised
    source. *)
Theorem leading_marker_ignored (self : t) (code : str) :
  filter comment_remover self (begin (prompt_used self) ++ code)
    = filter comment_remover self code /\
  clean_code comment_remover self (begin (prompt_used self) ++ code)
    = clean_code comment_remover self code.
Proof.
  unfold filter, clean_code. cbv zeta.
  now rewrite replace_marker_prefix.
Qed.

(** The lines of the normalised source are the lines of the
    comment-free text that hold something other than whitespace, each
    one unchanged and in the same order; when there is none, the
    normalised source is the one empty line. *)
Theorem clean_code_lines (self : t) (code : str) :
  split nl (clean_code comment_remover self code) =
  match List.filter kept (split nl (Spec.body comment_remover self code)) with
  | [] => [[]]
  | ls => ls
  end.
Proof.
  pose proof (kept_lines_split self code) as H. cbv zeta in H.
  destruct (List.filter kept
              (split nl (Spec.body comment_remover self code)))
    as [|l ls] eqn:E.
  - rewrite clean_code_unfold. fold (Spec.body comment_remover self code).
    now rewrite E.
  - apply H. discriminate.
Qed.

(** A normalised source that is not empty has no blank line: each of
    its lines holds a character that is not whitespace. *)
Theorem clean_code_no_blank_line (self : t) (code : str) :
  clean_code comment_remover self code <> [] ->
  Forall (fun ln => blank ln = false)
    (split nl (clean_code comment_remover self code)).
Proof.
  intros Hne. rewrite clean_code_lines.
  destruct (List.filter kept
              (split nl (Spec.body comment_remover self code)))
    as [|l ls] eqn:E.
  - elim Hne. rewrite clean_code_unfold. fold (Spec.body comment_remover self code).
    now rewrite E.
  - rewrite <- E. apply Forall_forall. intros x Hx.
    apply filter_In in Hx as [_ Hx]. now apply kept_iff_not_blank.
Qed.

(** The normalised source is empty exactly when the candidate, once the
    begin markers and the comments are gone, is whitespace only. *)
Theorem clean_code_empty_iff (self : t) (code : str) :
  clean_code comment_remover self code = [] <->
  blank (Spec.body comment_remover self code) = true.
Proof.
  rewrite clean_code_unfold. fold (Spec.body comment_remover self code).
  rewrite <- (join_split nl (Spec.body comment_remover self code)) at 2.
  rewrite blank_join, forallb_forall. split.
  - intros Hj l Hl. apply join_kept_nil in Hj.
    + apply filter_none in Hj. rewrite Forall_forall in Hj.
      now apply kept_false_iff_blank, Hj.
    + apply Forall_forall. intros x Hx. now apply filter_In in Hx.
  - intros Hall.
    assert (E : List.filter kept
                  (split nl (Spec.body comment_remover self code)) = []).
    { apply filter_none, Forall_forall. intros l Hl.
      now apply kept_false_iff_blank, Hall. }
    now rewrite E.
Qed.

(** A target symbol without line break that occurs in the normalised
    source occurs in the text [filter] searches: [filter] accepts every
    candidate whose normalised source names the target. *)
Theorem filter_complete (self : t) (code : str) :
  ~ In nl (target_api (prompt_used self)) ->
  contains (target_api (prompt_used self))
    (clean_code comment_remover self code) = true ->
  filter comment_remover self code = true.
Proof.
  intros Hnl Hin. unfold filter. cbv zeta.
  fold (Spec.body comment_remover self code).
  apply contains_Substring in Hin. apply contains_Substring.
  destruct (Substring_in_line Hnl Hin) as (l & Hl & Hsub).
  rewrite clean_code_lines in Hl.
  destruct (List.filter kept
              (split nl (Spec.body comment_remover self code)))
    as [|l0 ls] eqn:E.
  - destruct Hl as [<-|[]]. apply Substring_nil in Hsub. rewrite Hsub.
    now exists [], (Spec.body comment_remover self code).
  - rewrite <- E in Hl. apply filter_In in Hl as [Hl _].
    apply Substring_trans with (b := l); [assumption|].
    rewrite <- (join_split nl (Spec.body comment_remover self code)).
    now apply Substring_join.
Qed.

End AnyCommentRemover.

(** *** On concrete candidates *)

Lemma clean_code_no_blank_line_witness :
  let code := text ["// Write code below"; "targetApi(1);"; " ";
                    "  // done"; "targetApi(/* twice */ 2);"] in
  Forall (fun ln => blank ln = false)
    (split nl (clean_code Util.comment_remover Samples.plain code)).
Proof.
  intros code.
  apply (@clean_code_no_blank_line Util.comment_remover Samples.plain code).
  vm_compute. discriminate.
Defined.

Lemma filter_complete_witness :
  let code := text ["// Write code below"; "let x = 1;"; " ";
                    "targetApi(x);"] in
  filter Util.comment_remover Samples.plain code = true.
Proof.
  intros code.
  apply (@filter_complete Util.comment_remover Samples.plain code).
  - vm_compute. intuition discriminate.
  - reflexivity.
Defined.

End NormalFormProps.

(* ================================================================== *)
(** ** Prompt scaffold and construction *)
(* ================================================================== *)

Module PromptProps.

Import PyStrFacts JSTarget.

(** When the prompt, the separator and the begin marker have no line
    break, [wrap_prompt] gives three lines: the prompt as
    [wrap_in_comment] renders it, the separator, the begin marker. *)
Theorem wrap_prompt_lines (self : t) (prompt : str) :
  ~ In nl prompt ->
  ~ In nl (separator (prompt_used self)) ->
  ~ In nl (begin (prompt_used self)) ->
  split nl (wrap_prompt self prompt) =
  [wrap_in_comment self prompt; separator (prompt_used self);
   begin (prompt_used self)].
Proof.
  intros Hp Hs Hb. unfold wrap_prompt, wrap_in_comment.
  rewrite app_assoc. simpl ([nl] ++ _).
  rewrite split_line_then.
  - rewrite split_line_then by assumption. now rewrite split_line.
  - intros H. apply in_app_or in H as [H|H]; [|now apply Hp].
    vm_compute in H. intuition discriminate.
Qed.

(** The target symbol of the prompt is the configured [api_name], and
    the docstring and the example that the configuration leaves out are
    written around that same symbol: both name it. *)
Theorem create_prompt_defaults_name_target (cdict : config)
    (target : PyDict.dict str) (p : prompt) :
  cdict (of_string "target") = Some target ->
  _create_prompt_from_config cdict = Done p ->
  target_api p = PyDict.get target "api_name" (of_string "targetApi") /\
  (target (of_string "docstring") = None ->
   Substring (target_api p) (docstring p)) /\
  (target (of_string "example_code") = None ->
   Substring (target_api p) (example_code p)).
Proof.
  intros Ht. unfold _create_prompt_from_config. rewrite Ht.
  destruct (cdict (of_string "fuzzing")) as [fuzzing|]; [|discriminate].
  intros E. injection E as <-. cbn [target_api docstring example_code].
  split; [reflexivity|].
  split; intros Hnone; unfold PyDict.get; rewrite Hnone.
  - exists (of_string "Implement code that uses "), (of_string ".").
    reflexivity.
  - exists (of_string "function demo() { console.log("), (of_string "); }").
    reflexivity.
Qed.

Section AnyBase.

Variable super_init : kwargs -> outcome base.

(** When [__init__] returns, the template was
    [fuzzing_with_config_file], the prompt of the object is the one
    [_create_prompt_from_config] builds from the given configuration,
    the configuration is kept, and [special_eos] is [None]. *)
Theorem init_done (kw : kwargs) (obj : instance) :
  __init__ super_init kw = Done obj ->
  kw_template kw = Some (of_string "fuzzing_with_config_file") /\
  exists b cdict,
    super_init kw = Done b /\
    kw_config_dict kw = Some cdict /\
    _create_prompt_from_config cdict = Done (prompt_used (self_of obj)) /\
    CURRENT_TIME (self_of obj) = base_CURRENT_TIME b /\
    timeout (self_of obj) = base_timeout b /\
    config_dict obj = cdict /\
    special_eos obj = None.
Proof.
  unfold __init__. destruct (super_init kw) as [b|e]; [|discriminate].
  destruct (kw_template kw) as [template|]; [|discriminate].
  destruct (str_eq_dec template _) as [->|_]; [|discriminate].
  destruct (kw_config_dict kw) as [cdict|]; [|discriminate].
  destruct (_create_prompt_from_config cdict) as [p|e] eqn:E;
    [|discriminate].
  intros H. injection H as <-. split; [reflexivity|].
  exists b, cdict. now repeat split.
Qed.

(** With any other template [__init__] raises [NotImplementedError],
    whatever the configuration is and even when there is none. *)
Theorem init_other_template (kw : kwargs) (b : base) (template : str) :
  super_init kw = Done b ->
  kw_template kw = Some template ->
  template <> of_string "fuzzing_with_config_file" ->
  __init__ super_init kw =
  Raised (NotImplementedError
            (of_string "Only config-file template is supported for JS")).
Proof.
  intros Hb Ht Hne. unfold __init__. rewrite Hb, Ht.
  destruct (str_eq_dec template _); [contradiction | reflexivity].
Qed.

End AnyBase.

(** *** On concrete configurations *)

Example create_prompt_empty_sections :
  _create_prompt_from_config
    (PyDict.set "target" PyDict.empty
       (PyDict.set "fuzzing" PyDict.empty PyDict.empty))
  = Done default_prompt.
Proof. reflexivity. Qed.

Lemma wrap_prompt_lines_witness :
  split nl (wrap_prompt Samples.plain (of_string "Please call targetApi")) =
  [of_string "// Please call targetApi"; of_string "/* === */";
   of_string "// Write code below"].
Proof.
  apply (@wrap_prompt_lines Samples.plain
           (of_string "Please call targetApi"));
    vm_compute; intuition discriminate.
Defined.

Lemma create_prompt_defaults_witness :
  exists p,
    _create_prompt_from_config Samples.flat_config = Done p /\
    target_api p = of_string "Array.prototype.flat" /\
    Substring (target_api p) (docstring p) /\
    Substring (target_api p) (example_code p).
Proof.
  eexists. split; [reflexivity|].
  destruct (@create_prompt_defaults_name_target Samples.flat_config
              Samples.flat_target _ eq_refl eq_refl) as (Ha & Hd & He).
  split; [exact Ha|]. split; [now apply Hd | now apply He].
Defined.

Lemma init_done_witness :
  exists obj,
    __init__ Samples.super_ok Samples.flat_kwargs = Done obj /\
    target_api (prompt_used (self_of obj))
      = of_string "Array.prototype.flat" /\
    special_eos obj = None.
Proof.
  eexists. split; [reflexivity|].
  destruct (@init_done Samples.super_ok Samples.flat_kwargs _ eq_refl)
    as (_ & b & cdict & _ & _ & _ & _ & _ & _ & Heos).
  split; [reflexivity | exact Heos].
Defined.

Lemma init_other_template_witness :
  __init__ Samples.super_ok Samples.other_kwargs =
  Raised (NotImplementedError
            (of_string "Only config-file template is supported for JS")).
Proof.
  apply (@init_other_template Samples.super_ok Samples.other_kwargs
           {| base_CURRENT_TIME := of_string "1712345678.25";
              base_timeout := 10 |}
           (of_string "fuzzing_with_template")).
  - reflexivity.
  - reflexivity.
  - vm_compute. discriminate.
Defined.

End PromptProps.

(* ================================================================== *)
(** ** The classification as a whole *)
(* ================================================================== *)

Module OutcomeProps.

Import JSTarget ValidateProps.

Section AnyHost.

Variable host : machine.

(** The result of [validate_individual], by what [subprocess.run]
    gave. *)
Lemma validate_individual_result (self : t) (filename : str) (w : world) :
  fst (validate_individual host self filename w) =
  match
    fst (subprocess_run host [of_string "node"; filename] (timeout self) w)
  with
  | Raise TimeoutExpired => Ret (TIMED_OUT, of_string "javascript")
  | Raise FileNotFoundError => Ret (ERROR, of_string "node-not-found")
  | Raise e => Raise e
  | Ret done =>
      if (returncode done =? 0)%Z
      then Ret (SAFE, or_else (stdout done) (of_string "ok"))
      else Ret (FAILURE, or_else (stderr done) (stdout done))
  end.
Proof.
  unfold validate_individual.
  destruct (subprocess_run host _ (timeout self) w) as [[done|e] w'].
  - cbn [fst]. now destruct (returncode done =? 0)%Z.
  - now destruct e.
Qed.

(** What [subprocess.run] returns is what the program left: a completed
    run comes from a program that ended in time with that status and
    those streams. *)
Lemma subprocess_run_completed (args : list str) (limit : Z) (w : world)
    (done : CompletedProcess) :
  fst (subprocess_run host args limit w) = Ret done ->
  exists after,
    host (fs w) args limit =
    Launched (Exits (returncode done) (stdout done) (stderr done)) after.
Proof.
  destruct (host (fs w) args limit) as [| |e|b after] eqn:E.
  - unfold subprocess_run. rewrite E. discriminate.
  - unfold subprocess_run. rewrite E. discriminate.
  - unfold subprocess_run. rewrite E. discriminate.
  - rewrite (subprocess_run_launched _ _ _ _ E).
    destruct b as [code out err|code|code|]; try discriminate.
    intros H. injection H as <-. now exists after.
Qed.

(** [validate_individual] never lets [TimeoutExpired] or
    [FileNotFoundError] out, whatever the host does: what it raises is
    an exception of another class, and it is the one [subprocess.run]
    raised. *)
Theorem validate_raises_only_uncaught (self : t) (filename : str)
    (w : world) (e : exn) :
  fst (validate_individual host self filename w) = Raise e ->
  e <> TimeoutExpired /\
  e <> FileNotFoundError /\
  fst (subprocess_run host [of_string "node"; filename] (timeout self) w)
    = Raise e.
Proof.
  rewrite validate_individual_result.
  destruct (fst (subprocess_run host _ (timeout self) w)) as [done|e0].
  - destruct (returncode done =? 0)%Z; discriminate.
  - destruct e0; try discriminate; intros H; injection H as <-;
      repeat split; discriminate.
Qed.

(** The diagnostic is empty in one case only: [FAILURE] after a run
    that ended with a nonzero status and wrote to neither stream. *)
Theorem empty_diagnostic_only_silent_failure (self : t) (filename : str)
    (w : world) (r : FResult) :
  fst (validate_individual host self filename w) = Ret (r, []) ->
  r = FAILURE /\
  exists code after,
    Spec.node_run host self filename w = Launched (Exits code [] []) after
    /\ code <> 0%Z.
Proof.
  rewrite validate_individual_result.
  destruct (fst (subprocess_run host _ (timeout self) w)) as [done|e] eqn:E.
  - apply subprocess_run_completed in E as [after E].
    destruct done as [code out err]. cbn [returncode stdout stderr] in *.
    destruct (code =? 0)%Z eqn:Hc.
    + destruct out; discriminate.
    + intros H. injection H as <- Hd. split; [reflexivity|].
      destruct err as [|c err]; [|discriminate Hd]. simpl in Hd. subst out.
      exists code, after. split; [exact E | now apply Z.eqb_neq].
  - destruct e; discriminate.
Qed.

End AnyHost.

(** *** On concrete hosts *)

Lemma validate_raises_witness :
  PermissionError <> TimeoutExpired /\
  PermissionError <> FileNotFoundError /\
  fst (subprocess_run Samples.locked_node
         [of_string "node"; Samples.script] (timeout Samples.plain)
         Samples.empty_world) = Raise PermissionError.
Proof.
  apply (@validate_raises_only_uncaught Samples.locked_node Samples.plain
           Samples.script Samples.empty_world PermissionError).
  reflexivity.
Defined.

Lemma empty_diagnostic_witness :
  FAILURE = FAILURE /\
  exists code after,
    Spec.node_run Samples.silent_failure Samples.plain Samples.script
      Samples.empty_world = Launched (Exits code [] []) after
    /\ code <> 0%Z.
Proof.
  apply (@empty_diagnostic_only_silent_failure Samples.silent_failure
           Samples.plain Samples.script Samples.empty_world FAILURE).
  reflexivity.
Defined.

End OutcomeProps.
